(** * examples/test-websocket.py: the scripted WebSocket test client

    A shallow embedding of the script and of the four lifecycle callbacks it
    registers, with theorems about what the script prints, sends, and when.

    The script only calls into its runtime: [print], [time.sleep], the
    connection's [send] and [close], [subprocess.check_call], the
    [WebSocketApp] constructor and [run_forever].  A piece of script is
    embedded as a computation in a writer monad whose output is the list of
    those calls, in the order they are issued: this is the run in which
    every call returns, the one outcome the script itself branches on, the
    [ImportError] of the first [import websocket], being an input.  The
    module [Raising] embeds the same lines a second time, against a runtime
    in which any call may raise; its runs issue an initial part of the calls
    of the first embedding, and all of them when nothing raises.

    Strings are byte strings holding the UTF-8 encoding of the Python text.
    Durations are the arguments of [time.sleep], in seconds, as rationals:
    0.5 and 1 and their sums are exact both as binary floats and in [Q]. *)

From Stdlib Require Import List String ZArith QArith Lia.
Import ListNotations.
Local Open Scope string_scope.
Local Open Scope list_scope.

(** ** Calls and traces *)

(** The connection object [ws] handed to every callback: the [WebSocketApp]
    built by the script, identified by the URL it was built with. *)
Record WebSocketApp : Type := mkApp { app_url : string }.

(** One call of the script into its runtime. *)
Inductive call : Type :=
| Import (module : string) (found : bool)   (* import module; found = no ImportError *)
| Print (line : string)                     (* print(line) *)
| CheckCall (argv : list string)            (* subprocess.check_call(argv) *)
| Construct (url : string)                  (* websocket.WebSocketApp(url, on_open=..., ...) *)
| RunForever (ws : WebSocketApp)            (* ws.run_forever() *)
| Send (ws : WebSocketApp) (data : string)  (* ws.send(data) *)
| Sleep (secs : Q)                          (* time.sleep(secs) *)
| Close (ws : WebSocketApp).                (* ws.close() *)

Definition trace : Type := list call.

(** ** The script monad: a value together with the calls issued *)

Module Script.

Definition M (A : Type) : Type := (A * trace)%type.

Definition ret {A : Type} (a : A) : M A := (a, []).

Definition bind {A B : Type} (m : M A) (k : A -> M B) : M B :=
  let (a, t1) := m in
  let (b, t2) := k a in
  (b, t1 ++ t2).

Definition emit (c : call) : M unit := (tt, [c]).

Definition calls {A : Type} (m : M A) : trace := snd m.

Definition value {A : Type} (m : M A) : A := fst m.

(** [for x in xs: body x] *)
Fixpoint for_each {A : Type} (xs : list A) (body : A -> M unit) : M unit :=
  match xs with
  | [] => ret tt
  | x :: rest => bind (body x) (fun _ => for_each rest body)
  end.

End Script.

Import Script.

Declare Scope script_scope.
Delimit Scope script_scope with script.
Notation "x <- m ;; k" := (bind m (fun x => k))
  (at level 61, m at next level, right associativity) : script_scope.
Notation "m ;; k" := (bind m (fun _ => k))
  (at level 61, right associativity) : script_scope.
Notation "'for_' x 'in_' xs 'do_' body" := (for_each xs (fun x => body))
  (at level 61, x name, xs at next level, right associativity) : script_scope.
Local Open Scope script_scope.

(** ** Runtime calls as the script writes them *)

Definition print (line : string) : M unit := emit (Print line).
Definition time_sleep (secs : Q) : M unit := emit (Sleep secs).
Definition ws_send (ws : WebSocketApp) (data : string) : M unit := emit (Send ws data).
Definition ws_close (ws : WebSocketApp) : M unit := emit (Close ws).

(** ** The callbacks (lines 17-43) *)

(** What the library hands to [on_error]: an exception object; the f-string
    formats it with [str]. *)
Record exception : Type := mkExc { exc_type : string; exc_str : string }.

Definition on_message (ws : WebSocketApp) (message : string) : M unit :=
  print ("📩 Received: " ++ message).

Definition on_error (ws : WebSocketApp) (error : exception) : M unit :=
  print ("❌ Error: " ++ exc_str error).

Definition on_close (ws : WebSocketApp) (close_status_code : option Z)
    (close_msg : option string) : M unit :=
  print "🔌 Connection closed".

Definition messages : list string :=
  [ "Hello from Python client!";
    "This is a test message";
    "WebSocket is working!" ].

Definition on_open (ws : WebSocketApp) : M unit :=
  print "✅ Connected to server" ;;
  (for_ msg in_ messages do_
     ws_send ws msg ;;
     print ("📤 Sent: " ++ msg) ;;
     time_sleep (1#2)) ;;
  time_sleep 1 ;;
  ws_close ws.

(** ** The library's run loop

    [run_forever] belongs to the websocket-client library, not to the
    script.  It is represented by what it does with the script's callbacks:
    it blocks, and for each lifecycle event of the connection it invokes the
    callback registered for that event, one after the other on the calling
    thread.  Which events occur is decided by the network and the peer, so
    the sequence of events is an input. *)

Inductive event : Type :=
| Opened
| Message (message : string)
| Error (error : exception)
| Closed (close_status_code : option Z) (close_msg : option string).

Record callbacks : Type := mkCallbacks {
  cb_open : WebSocketApp -> M unit;
  cb_message : WebSocketApp -> string -> M unit;
  cb_error : WebSocketApp -> exception -> M unit;
  cb_close : WebSocketApp -> option Z -> option string -> M unit
}.

Definition dispatch (cbs : callbacks) (ws : WebSocketApp) (ev : event) : M unit :=
  match ev with
  | Opened => cb_open cbs ws
  | Message message => cb_message cbs ws message
  | Error error => cb_error cbs ws error
  | Closed code msg => cb_close cbs ws code msg
  end.

Definition run_forever (cbs : callbacks) (ws : WebSocketApp)
    (events : list event) : M unit :=
  emit (RunForever ws) ;;
  for_ ev in_ events do_ dispatch cbs ws ev.

(** [websocket.WebSocketApp(url, on_open=..., ...)]: the new connection
    object; nothing is connected until [run_forever]. *)
Definition websocket_WebSocketApp (url : string) : M WebSocketApp :=
  emit (Construct url) ;; ret (mkApp url).

(** ** The script (lines 7-15 and 45-57) *)

(** What one invocation of the script finds: its command line, its
    environment variables, the interpreter running it ([sys.executable]),
    and whether the websocket-client package can be imported. *)
Record process : Type := mkProcess {
  argv : list string;
  environ : list (string * string);
  sys_executable : string;
  websocket_installed : bool
}.

Definition import (module : string) : M unit := emit (Import module true).

(** Lines 7-15: the imports, with the [except ImportError] branch. *)
Definition imports (p : process) : M unit :=
  import "sys" ;;
  import "time" ;;
  if websocket_installed p then
    import "websocket"
  else
    emit (Import "websocket" false) ;;
    print "Installing websocket-client..." ;;
    import "subprocess" ;;
    emit (CheckCall [sys_executable p; "-m"; "pip"; "install"; "websocket-client"]) ;;
    import "websocket".

Definition registered : callbacks :=
  mkCallbacks on_open on_message on_error on_close.

(** Line 46: [server_url = "ws://localhost:8096/ws"], a module-level name. *)
Definition server_url : string := "ws://localhost:8096/ws".

(** Lines 48-57: the rest of the body of [if __name__ == "__main__":]. *)
Definition main (events : list event) : M unit :=
  print ("Connecting to " ++ server_url ++ "...") ;;
  ws <- websocket_WebSocketApp server_url ;;
  run_forever registered ws events.

(** The whole file, run as a script. *)
Definition script (p : process) (events : list event) : M unit :=
  imports p ;;
  main events.

(** ** Observations on a trace *)

(** The payloads handed to [send], in order. *)
Definition sent (t : trace) : list string :=
  flat_map (fun c => match c with Send _ data => [data] | _ => [] end) t.

(** The lines written to standard output, in order. *)
Definition printed (t : trace) : list string :=
  flat_map (fun c => match c with Print line => [line] | _ => [] end) t.

(** The connections on which [close] is called. *)
Definition closed_by_client (t : trace) : list WebSocketApp :=
  flat_map (fun c => match c with Close ws => [ws] | _ => [] end) t.

(** The URLs handed to the [WebSocketApp] constructor. *)
Definition constructed (t : trace) : list string :=
  flat_map (fun c => match c with Construct url => [url] | _ => [] end) t.

(** The connections on which [run_forever] is entered. *)
Definition run_loops (t : trace) : list WebSocketApp :=
  flat_map (fun c => match c with RunForever ws => [ws] | _ => [] end) t.

(** The command lines handed to [subprocess.check_call]. *)
Definition installs (t : trace) : list (list string) :=
  flat_map (fun c => match c with CheckCall argv => [argv] | _ => [] end) t.

(** The URL of every connection object the script uses: the one it hands
    to [run_forever], [send] or [close]. *)
Definition peers (t : trace) : list string :=
  flat_map (fun c => match c with
                     | RunForever ws | Send ws _ | Close ws => [app_url ws]
                     | _ => []
                     end) t.

(** Each payload sent, with the call issued right after its [send]. *)
Fixpoint followers (t : trace) : list (string * option call) :=
  match t with
  | [] => []
  | Send _ data :: rest => (data, hd_error rest) :: followers rest
  | _ :: rest => followers rest
  end.

(** The script's clock: a call is issued [now] seconds after the start of
    the trace when the sleeps before it add up to [now]. *)
Definition tick (now : Q) (c : call) : Q :=
  match c with
  | Sleep secs => now + secs
  | _ => now
  end.

Fixpoint timeline (now : Q) (t : trace) : list (Q * call) :=
  match t with
  | [] => []
  | c :: rest => (now, c) :: timeline (tick now c) rest
  end.

Definition elapsed (t : trace) : Q := fold_left tick t 0.

Definition send_times_from (now : Q) (t : trace) : list Q :=
  flat_map (fun tc => match snd tc with Send _ _ => [fst tc] | _ => [] end)
           (timeline now t).

Definition close_times_from (now : Q) (t : trace) : list Q :=
  flat_map (fun tc => match snd tc with Close _ => [fst tc] | _ => [] end)
           (timeline now t).

Definition send_times (t : trace) : list Q := send_times_from 0 t.
Definition close_times (t : trace) : list Q := close_times_from 0 t.

(** The time of the last send, when there is one. *)
Definition last_send_time (t : trace) : option Q :=
  match rev (send_times t) with
  | [] => None
  | at_ :: _ => Some at_
  end.

(** Differences between neighbours of a list of times. *)
Fixpoint gaps (times : list Q) : list Q :=
  match times with
  | a :: ((b :: _) as rest) => (b - a) :: gaps rest
  | _ => []
  end.

(** The console lines the callbacks write. *)
Definition connected_notice : string := "✅ Connected to server".
Definition closed_notice : string := "🔌 Connection closed".
Definition sent_tag : string := "📤 Sent: ".
Definition received_tag : string := "📩 Received: ".
Definition error_tag : string := "❌ Error: ".

Definition is_sent_line (line : string) : bool := String.prefix sent_tag line.

(** One turn of the send loop of [on_open], as calls. *)
Definition turn (ws : WebSocketApp) (msg : string) : trace :=
  [Send ws msg; Print (sent_tag ++ msg); Sleep (1#2)].

(** [n] times starting at [now], [step] apart. *)
Fixpoint ticks (now step : Q) (n : nat) : list Q :=
  match n with
  | O => []
  | S n' => now :: ticks (now + step) step n'
  end.

(** The events of a run that are the opening of the connection. *)
Definition is_open (ev : event) : bool :=
  match ev with Opened => true | _ => false end.

Definition is_close (ev : event) : bool :=
  match ev with Closed _ _ => true | _ => false end.

(** What the run loop makes the script do for a sequence of events: the
    calls of the callbacks it dispatches to. *)
Definition session (ws : WebSocketApp) (events : list event) : trace :=
  flat_map (fun ev => calls (dispatch registered ws ev)) events.

(** The calls of lines 48-57 up to the moment the run loop takes over. *)
Definition connecting : trace :=
  [ Print "Connecting to ws://localhost:8096/ws...";
    Construct server_url;
    RunForever (mkApp server_url) ].

(** The calls of lines 7-15 when the library is missing. *)
Definition self_install (p : process) : trace :=
  [ Import "sys" true;
    Import "time" true;
    Import "websocket" false;
    Print "Installing websocket-client...";
    Import "subprocess" true;
    CheckCall [sys_executable p; "-m"; "pip"; "install"; "websocket-client"];
    Import "websocket" true ].

(** ** Reading the console

    [print(line)] writes the line and a newline to standard output; the
    console is the text so written. *)

Definition newline : string := String (Ascii.ascii_of_nat 10) EmptyString.

Definition stdout (t : trace) : string :=
  fold_right (fun line out : string => (line ++ newline ++ out)%string)
             EmptyString (printed t).




(** [s] without its first [n] bytes. *)
Fixpoint drop_chars (n : nat) (s : string) : string :=
  match n, s with
  | O, _ => s
  | S _, EmptyString => EmptyString
  | S n', String _ rest => drop_chars n' rest
  end.

(** The text behind the received tag, for each printed line that carries
    the tag. *)
Definition received_payloads (lines : list string) : list string :=
  flat_map (fun line =>
              if String.prefix received_tag line
              then [drop_chars (String.length received_tag) line]
              else []) lines.

(** The messages the library delivers in a run, in order. *)
Definition incoming (events : list event) : list string :=
  flat_map (fun ev => match ev with Message message => [message] | _ => [] end)
           events.

(** The number of times the connection is reported open. *)
Definition opens (events : list event) : nat :=
  List.length (filter is_open events).

(** ** The same lines, with calls that raise

    Everything above describes the run in which every call returns.  A call
    may also raise: [send] on a dropped connection, [check_call] when pip
    exits with an error, [print] on a closed console.  Lines 17-43 and 45-57
    contain no [try], so an exception raised by a call ends the callback, or
    the script, at that call; the one handler of the file is the
    [except ImportError] of lines 9-15.

    In this module a computation is run against a runtime that decides, from
    the calls issued so far, whether the next call raises; it yields the
    calls it issued, the raising one included, and whether it returned. *)

Module Raising.

Inductive exn : Type :=
| ImportError (module : string)   (* the module is not installed *)
| RaisedBy (c : call).            (* whatever the runtime raises inside [c] *)

Inductive result (A : Type) : Type :=
| Returned (a : A)
| Raised (e : exn).

Arguments Returned {A} a.
Arguments Raised {A} e.

Definition runtime : Type := trace -> call -> bool.

Definition M (A : Type) : Type := runtime -> trace -> (result A * trace)%type.

Definition outcome {A : Type} (r : result A * trace) : result A := fst r.

Definition issued {A : Type} (r : result A * trace) : trace := snd r.

Definition ret {A : Type} (a : A) : M A := fun _ _ => (Returned a, []).

Definition bind {A B : Type} (m : M A) (k : A -> M B) : M B :=
  fun rt before =>
    match m rt before with
    | (Returned a, t1) =>
        let (r, t2) := k a rt (before ++ t1) in (r, t1 ++ t2)
    | (Raised e, t1) => (Raised e, t1)
    end.

Definition emit (c : call) : M unit :=
  fun rt before =>
    (if rt before c then Raised (RaisedBy c) else Returned tt, [c]).

(** [for x in xs: body x] *)
Fixpoint for_each {A : Type} (xs : list A) (body : A -> M unit) : M unit :=
  match xs with
  | [] => ret tt
  | x :: rest => bind (body x) (fun _ => for_each rest body)
  end.

(** Issuing the calls of a trace one after the other, up to the first that
    raises.  An import recorded as failed stands for an [ImportError] that
    was caught: it is issued and the calls after it follow. *)
Definition step (c : call) : M unit :=
  match c with
  | Import _ false => fun _ _ => (Returned tt, [c])
  | _ => emit c
  end.

Definition replay (t : trace) : M unit := for_each t step.

(** Two computations that do the same against every runtime. *)
Definition same {A : Type} (m1 m2 : M A) : Prop :=
  forall (rt : runtime) (before : trace), m1 rt before = m2 rt before.

(** [try: body / except ImportError: handler] *)
Definition try_except_ImportError (body handler : M unit) : M unit :=
  fun rt before =>
    match body rt before with
    | (Raised (ImportError _), t1) =>
        let (r, t2) := handler rt (before ++ t1) in (r, t1 ++ t2)
    | done => done
    end.

(** The library calls each callback inside a [try] of its own: an
    exception of a callback ends that callback, and the run loop goes on
    with whatever event comes next. *)
Definition callback (m : M unit) : M unit :=
  fun rt before => (Returned tt, issued (m rt before)).

Declare Scope raising_scope.
Delimit Scope raising_scope with raising.
Notation "x <- m ;; k" := (bind m (fun x => k))
  (at level 61, m at next level, right associativity) : raising_scope.
Notation "m ;; k" := (bind m (fun _ => k))
  (at level 61, right associativity) : raising_scope.
Notation "'for_' x 'in_' xs 'do_' body" := (for_each xs (fun x => body))
  (at level 61, x name, xs at next level, right associativity) : raising_scope.
Open Scope raising_scope.

Definition print (line : string) : M unit := emit (Print line).
Definition time_sleep (secs : Q) : M unit := emit (Sleep secs).
Definition ws_send (ws : WebSocketApp) (data : string) : M unit := emit (Send ws data).
Definition ws_close (ws : WebSocketApp) : M unit := emit (Close ws).
Definition check_call (argv : list string) : M unit := emit (CheckCall argv).
Definition import (module : string) : M unit := emit (Import module true).

(** Lines 17-43. *)

Definition on_message (ws : WebSocketApp) (message : string) : M unit :=
  print ("📩 Received: " ++ message).

Definition on_error (ws : WebSocketApp) (error : exception) : M unit :=
  print ("❌ Error: " ++ exc_str error).

Definition on_close (ws : WebSocketApp) (close_status_code : option Z)
    (close_msg : option string) : M unit :=
  print "🔌 Connection closed".

Definition on_open (ws : WebSocketApp) : M unit :=
  print "✅ Connected to server" ;;
  (for_ msg in_ messages do_
     ws_send ws msg ;;
     print ("📤 Sent: " ++ msg) ;;
     time_sleep (1#2)) ;;
  time_sleep 1 ;;
  ws_close ws.

(** The run loop. *)

Record callbacks : Type := mkCallbacks {
  cb_open : WebSocketApp -> M unit;
  cb_message : WebSocketApp -> string -> M unit;
  cb_error : WebSocketApp -> exception -> M unit;
  cb_close : WebSocketApp -> option Z -> option string -> M unit
}.

Definition dispatch (cbs : callbacks) (ws : WebSocketApp) (ev : event) : M unit :=
  match ev with
  | Opened => cb_open cbs ws
  | Message message => cb_message cbs ws message
  | Error error => cb_error cbs ws error
  | Closed code msg => cb_close cbs ws code msg
  end.

Definition deliver (cbs : callbacks) (ws : WebSocketApp)
    (events : list event) : M unit :=
  for_ ev in_ events do_ callback (dispatch cbs ws ev).

Definition run_forever (cbs : callbacks) (ws : WebSocketApp)
    (events : list event) : M unit :=
  emit (RunForever ws) ;;
  deliver cbs ws events.

Definition websocket_WebSocketApp (url : string) : M WebSocketApp :=
  emit (Construct url) ;; ret (mkApp url).

(** Line 10: [import websocket] raises [ImportError] when the package is
    missing. *)
Definition import_websocket (p : process) : M unit :=
  if websocket_installed p then import "websocket"
  else fun _ _ => (Raised (ImportError "websocket"), [Import "websocket" false]).

(** Lines 7-15. *)
Definition imports (p : process) : M unit :=
  import "sys" ;;
  import "time" ;;
  try_except_ImportError
    (import_websocket p)
    (print "Installing websocket-client..." ;;
     import "subprocess" ;;
     check_call [sys_executable p; "-m"; "pip"; "install"; "websocket-client"] ;;
     import "websocket").

Definition registered : callbacks :=
  mkCallbacks on_open on_message on_error on_close.

(** Lines 48-57. *)
Definition main (events : list event) : M unit :=
  print ("Connecting to " ++ server_url ++ "...") ;;
  ws <- websocket_WebSocketApp server_url ;;
  run_forever registered ws events.

Definition script (p : process) (events : list event) : M unit :=
  imports p ;;
  main events.

(** A whole run of the script, from its first call. *)
Definition run (rt : runtime) (p : process) (events : list event)
    : result unit * trace :=
  script p events rt [].

(** Runtimes. *)

(** Every call returns. *)
Definition never : runtime := fun _ _ => false.



Close Scope raising_scope.

End Raising.

(** The calls of [on_open] when none raises. *)
Definition on_open_plan (ws : WebSocketApp) : trace :=
  Print connected_notice :: flat_map (turn ws) messages ++ [Sleep 1; Close ws].

(** [t] is an initial part of [full]. *)
Definition initial_part {A : Type} (t full : list A) : Prop :=
  exists rest : list A, full = t ++ rest.

(** ** The script monad computes traces by concatenation *)

Lemma calls_bind {A B : Type} (m : M A) (k : A -> M B) :
  calls (bind m k) = calls m ++ calls (k (value m)).
Proof.
  destruct m as [a t1]. unfold bind, calls, value. simpl.
  destruct (k a) as [b t2]. reflexivity.
Qed.

Lemma calls_for_each {A : Type} (xs : list A) (body : A -> M unit) :
  calls (for_each xs body) = flat_map (fun x => calls (body x)) xs.
Proof.
  induction xs as [| x rest IH]; simpl.
  - reflexivity.
  - rewrite calls_bind, IH. reflexivity.
Qed.


(** ** Observations distribute over concatenation *)

Lemma sent_app (t1 t2 : trace) : sent (t1 ++ t2) = sent t1 ++ sent t2.
Proof. apply flat_map_app. Qed.

Lemma printed_app (t1 t2 : trace) : printed (t1 ++ t2) = printed t1 ++ printed t2.
Proof. apply flat_map_app. Qed.

Lemma closed_by_client_app (t1 t2 : trace) :
  closed_by_client (t1 ++ t2) = closed_by_client t1 ++ closed_by_client t2.
Proof. apply flat_map_app. Qed.

Lemma constructed_app (t1 t2 : trace) :
  constructed (t1 ++ t2) = constructed t1 ++ constructed t2.
Proof. apply flat_map_app. Qed.

Lemma run_loops_app (t1 t2 : trace) :
  run_loops (t1 ++ t2) = run_loops t1 ++ run_loops t2.
Proof. apply flat_map_app. Qed.

Lemma installs_app (t1 t2 : trace) :
  installs (t1 ++ t2) = installs t1 ++ installs t2.
Proof. apply flat_map_app. Qed.

Lemma peers_app (t1 t2 : trace) : peers (t1 ++ t2) = peers t1 ++ peers t2.
Proof. apply flat_map_app. Qed.

Lemma elapsed_app (t1 t2 : trace) :
  elapsed (t1 ++ t2) = fold_left tick t2 (elapsed t1).
Proof. unfold elapsed. apply fold_left_app. Qed.

Lemma timeline_app (now : Q) (t1 t2 : trace) :
  timeline now (t1 ++ t2) = timeline now t1 ++ timeline (fold_left tick t1 now) t2.
Proof.
  revert now. induction t1 as [| c rest IH]; intros now; simpl.
  - reflexivity.
  - now rewrite IH.
Qed.

Lemma send_times_from_app (now : Q) (t1 t2 : trace) :
  send_times_from now (t1 ++ t2)
  = send_times_from now t1 ++ send_times_from (fold_left tick t1 now) t2.
Proof. unfold send_times_from. now rewrite timeline_app, flat_map_app. Qed.

Lemma close_times_from_app (now : Q) (t1 t2 : trace) :
  close_times_from now (t1 ++ t2)
  = close_times_from now t1 ++ close_times_from (fold_left tick t1 now) t2.
Proof. unfold close_times_from. now rewrite timeline_app, flat_map_app. Qed.

(** ** The send loop, for any list of messages *)

Section SendLoop.

Variable ws : WebSocketApp.

(** The loop of lines 36-39 issues one [turn] per message. *)
Lemma send_loop_calls (msgs : list string) :
  calls (for_ msg in_ msgs do_
           ws_send ws msg ;;
           print ("📤 Sent: " ++ msg) ;;
           time_sleep (1#2))
  = flat_map (turn ws) msgs.
Proof.
  rewrite calls_for_each. apply flat_map_ext. intros msg. reflexivity.
Qed.

Lemma sent_turns (msgs : list string) : sent (flat_map (turn ws) msgs) = msgs.
Proof.
  induction msgs as [| m rest IH]; simpl; [reflexivity | now rewrite IH].
Qed.

Lemma closed_by_client_turns (msgs : list string) :
  closed_by_client (flat_map (turn ws) msgs) = [].
Proof.
  induction msgs as [| m rest IH]; simpl; [reflexivity | exact IH].
Qed.

Lemma printed_turns (msgs : list string) :
  printed (flat_map (turn ws) msgs) = map (append sent_tag) msgs.
Proof.
  induction msgs as [| m rest IH]; simpl; [reflexivity | now rewrite IH].
Qed.

(** Right after each send comes the print of its confirmation. *)
Lemma followers_turns (msgs : list string) (tail : trace) :
  followers (flat_map (turn ws) msgs ++ tail)
  = map (fun m => (m, Some (Print (sent_tag ++ m)))) msgs ++ followers tail.
Proof.
  induction msgs as [| m rest IH]; simpl; [reflexivity | now rewrite IH].
Qed.

(** The loop advances the clock by half a second per message ... *)
Lemma clock_after_turns (msgs : list string) (now : Q) :
  fold_left tick (flat_map (turn ws) msgs) now
  == now + inject_Z (Z.of_nat (List.length msgs)) * (1#2).
Proof.
  revert now. induction msgs as [| m rest IH]; intros now.
  - simpl. ring.
  - cbn [flat_map turn app fold_left tick List.length]. rewrite IH.
    rewrite Nat2Z.inj_succ, <- Z.add_1_r, inject_Z_plus. ring.
Qed.

(** ... and its sends are issued half a second apart. *)
Lemma send_times_turns (msgs : list string) (now : Q) :
  send_times_from now (flat_map (turn ws) msgs) = ticks now (1#2) (List.length msgs).
Proof.
  revert now. induction msgs as [| m rest IH]; intros now.
  - reflexivity.
  - change (flat_map (turn ws) (m :: rest)) with (turn ws m ++ flat_map (turn ws) rest).
    rewrite send_times_from_app, IH. reflexivity.
Qed.

End SendLoop.

Lemma gaps_ticks (now step : Q) (n : nat) :
  Forall (fun gap => gap == step) (gaps (ticks now step n)).
Proof.
  revert now. induction n as [| n IH]; intros now; [constructor |].
  destruct n as [| n']; [constructor |].
  change (Forall (fun gap => gap == step)
            ((now + step - now) :: gaps (ticks (now + step) step (S n')))).
  constructor; [ring | apply IH].
Qed.

Lemma length_gaps_ticks (now step : Q) (n : nat) :
  List.length (gaps (ticks now step n)) = Nat.pred n.
Proof.
  revert now. induction n as [| n IH]; intros now; [reflexivity |].
  destruct n as [| n']; [reflexivity |].
  change (S (List.length (gaps (ticks (now + step) step (S n')))) = S n').
  now rewrite IH.
Qed.

(** The calls of [on_open]: the notice, one [turn] per message, the final
    pause, the close. *)
Lemma on_open_calls (ws : WebSocketApp) :
  calls (on_open ws)
  = Print connected_notice :: flat_map (turn ws) messages ++ [Sleep 1; Close ws].
Proof.
  unfold on_open. rewrite !calls_bind, send_loop_calls. reflexivity.
Qed.

(** ** One dispatched event *)

Section Dispatch.

Variable ws : WebSocketApp.

Lemma sent_dispatch (ev : event) :
  sent (calls (dispatch registered ws ev)) = if is_open ev then messages else [].
Proof.
  destruct ev; [| reflexivity ..].
  change (sent (calls (on_open ws)) = messages).
  rewrite on_open_calls.
  change (sent (flat_map (turn ws) messages ++ [Sleep 1; Close ws]) = messages).
  rewrite sent_app, sent_turns. apply app_nil_r.
Qed.

Lemma closed_by_client_dispatch (ev : event) :
  closed_by_client (calls (dispatch registered ws ev)) = if is_open ev then [ws] else [].
Proof. destruct ev; reflexivity. Qed.

Lemma constructed_dispatch (ev : event) :
  constructed (calls (dispatch registered ws ev)) = [].
Proof. destruct ev; reflexivity. Qed.

Lemma run_loops_dispatch (ev : event) :
  run_loops (calls (dispatch registered ws ev)) = [].
Proof. destruct ev; reflexivity. Qed.

Lemma installs_dispatch (ev : event) :
  installs (calls (dispatch registered ws ev)) = [].
Proof. destruct ev; reflexivity. Qed.

Lemma peers_dispatch (ev : event) :
  Forall (eq (app_url ws)) (peers (calls (dispatch registered ws ev))).
Proof. destruct ev; simpl; repeat constructor. Qed.

(** Only the open callback writes lines that carry the sent tag: the tags
    of the other callbacks differ from it within their first four bytes. *)
Lemma sent_lines_dispatch (ev : event) :
  filter is_sent_line (printed (calls (dispatch registered ws ev)))
  = if is_open ev then map (append sent_tag) messages else [].
Proof. destruct ev; reflexivity. Qed.

(** Only the close callback writes the closed notice. *)
Lemma closed_notices_dispatch (ev : event) :
  count_occ string_dec (printed (calls (dispatch registered ws ev))) closed_notice
  = if is_close ev then 1%nat else 0%nat.
Proof.
  destruct ev; simpl;
    repeat match goal with
           | |- context [string_dec ?a ?b] =>
               destruct (string_dec a b) as [E | _]; [try discriminate E |]
           end; reflexivity.
Qed.

End Dispatch.

(** ** A whole session, by induction on the events delivered *)

Section Session.

Variable ws : WebSocketApp.

Lemma sent_session (events : list event) :
  sent (session ws events) = flat_map (fun _ => messages) (filter is_open events).
Proof.
  induction events as [| ev rest IH]; [reflexivity |].
  change (session ws (ev :: rest))
    with (calls (dispatch registered ws ev) ++ session ws rest).
  rewrite sent_app, sent_dispatch, IH. simpl.
  destruct (is_open ev); reflexivity.
Qed.

Lemma closed_by_client_session (events : list event) :
  closed_by_client (session ws events) = map (fun _ => ws) (filter is_open events).
Proof.
  induction events as [| ev rest IH]; [reflexivity |].
  change (session ws (ev :: rest))
    with (calls (dispatch registered ws ev) ++ session ws rest).
  rewrite closed_by_client_app, closed_by_client_dispatch, IH. simpl.
  destruct (is_open ev); reflexivity.
Qed.

Lemma sent_lines_session (events : list event) :
  filter is_sent_line (printed (session ws events))
  = flat_map (fun _ => map (append sent_tag) messages) (filter is_open events).
Proof.
  induction events as [| ev rest IH]; [reflexivity |].
  change (session ws (ev :: rest))
    with (calls (dispatch registered ws ev) ++ session ws rest).
  rewrite printed_app, filter_app, sent_lines_dispatch, IH. simpl.
  destruct (is_open ev); reflexivity.
Qed.

Lemma closed_notices_session (events : list event) :
  count_occ string_dec (printed (session ws events)) closed_notice
  = List.length (filter is_close events).
Proof.
  induction events as [| ev rest IH]; [reflexivity |].
  change (session ws (ev :: rest))
    with (calls (dispatch registered ws ev) ++ session ws rest).
  rewrite printed_app, count_occ_app, closed_notices_dispatch, IH. simpl.
  destruct (is_close ev); reflexivity.
Qed.

Lemma constructed_session (events : list event) :
  constructed (session ws events) = [].
Proof.
  induction events as [| ev rest IH]; [reflexivity |].
  change (session ws (ev :: rest))
    with (calls (dispatch registered ws ev) ++ session ws rest).
  now rewrite constructed_app, constructed_dispatch, IH.
Qed.

Lemma run_loops_session (events : list event) :
  run_loops (session ws events) = [].
Proof.
  induction events as [| ev rest IH]; [reflexivity |].
  change (session ws (ev :: rest))
    with (calls (dispatch registered ws ev) ++ session ws rest).
  now rewrite run_loops_app, run_loops_dispatch, IH.
Qed.

Lemma installs_session (events : list event) :
  installs (session ws events) = [].
Proof.
  induction events as [| ev rest IH]; [reflexivity |].
  change (session ws (ev :: rest))
    with (calls (dispatch registered ws ev) ++ session ws rest).
  now rewrite installs_app, installs_dispatch, IH.
Qed.

Lemma peers_session (events : list event) :
  Forall (eq (app_url ws)) (peers (session ws events)).
Proof.
  induction events as [| ev rest IH]; [constructor |].
  change (session ws (ev :: rest))
    with (calls (dispatch registered ws ev) ++ session ws rest).
  rewrite peers_app. apply Forall_app. split; [apply peers_dispatch | exact IH].
Qed.

End Session.

Lemma filter_is_open_nil (events : list event) :
  ~ In Opened events -> filter is_open events = [].
Proof.
  induction events as [| ev rest IH]; intros Hno; [reflexivity |].
  destruct ev; simpl.
  - exfalso. apply Hno. now left.
  - apply IH. intros Hin. apply Hno. now right.
  - apply IH. intros Hin. apply Hno. now right.
  - apply IH. intros Hin. apply Hno. now right.
Qed.

(** ** The script as a whole *)

Lemma imports_calls (p : process) :
  calls (imports p)
  = if websocket_installed p
    then [Import "sys" true; Import "time" true; Import "websocket" true]
    else self_install p.
Proof. unfold imports. destruct (websocket_installed p); reflexivity. Qed.

Lemma main_calls (events : list event) :
  calls (main events) = connecting ++ session (mkApp server_url) events.
Proof.
  unfold main, run_forever. rewrite !calls_bind, calls_for_each. reflexivity.
Qed.

Lemma script_calls (p : process) (events : list event) :
  calls (script p events)
  = calls (imports p) ++ connecting ++ session (mkApp server_url) events.
Proof. unfold script. now rewrite calls_bind, main_calls. Qed.

Lemma sent_script (p : process) (events : list event) :
  sent (calls (script p events))
  = flat_map (fun _ => messages) (filter is_open events).
Proof.
  rewrite script_calls, imports_calls, !sent_app, sent_session.
  destruct (websocket_installed p); reflexivity.
Qed.

Lemma closed_by_client_script (p : process) (events : list event) :
  closed_by_client (calls (script p events))
  = map (fun _ => mkApp server_url) (filter is_open events).
Proof.
  rewrite script_calls, imports_calls, !closed_by_client_app, closed_by_client_session.
  destruct (websocket_installed p); reflexivity.
Qed.

Lemma sent_lines_script (p : process) (events : list event) :
  filter is_sent_line (printed (calls (script p events)))
  = flat_map (fun _ => map (append sent_tag) messages) (filter is_open events).
Proof.
  rewrite script_calls, imports_calls, !printed_app, !filter_app, sent_lines_session.
  destruct (websocket_installed p); reflexivity.
Qed.

Lemma closed_notices_script (p : process) (events : list event) :
  count_occ string_dec (printed (calls (script p events))) closed_notice
  = List.length (filter is_close events).
Proof.
  rewrite script_calls, imports_calls, !printed_app, !count_occ_app,
    closed_notices_session.
  destruct (websocket_installed p); reflexivity.
Qed.

Lemma constructed_script (p : process) (events : list event) :
  constructed (calls (script p events)) = [server_url].
Proof.
  rewrite script_calls, imports_calls, !constructed_app, constructed_session.
  destruct (websocket_installed p); reflexivity.
Qed.

Lemma run_loops_script (p : process) (events : list event) :
  run_loops (calls (script p events)) = [mkApp server_url].
Proof.
  rewrite script_calls, imports_calls, !run_loops_app, run_loops_session.
  destruct (websocket_installed p); reflexivity.
Qed.

Lemma peers_script (p : process) (events : list event) :
  Forall (eq server_url) (peers (calls (script p events))).
Proof.
  rewrite script_calls, imports_calls, !peers_app.
  apply Forall_app; split; [| apply Forall_app; split].
  - destruct (websocket_installed p); constructor.
  - repeat constructor.
  - apply (peers_session (mkApp server_url)).
Qed.

(** The send times of [on_open]: one per message, from 0, half a second
    apart. *)
Lemma on_open_send_times (ws : WebSocketApp) :
  send_times (calls (on_open ws)) = ticks 0 (1#2) (List.length messages).
Proof.
  rewrite on_open_calls. unfold send_times.
  change (send_times_from 0 (flat_map (turn ws) messages ++ [Sleep 1; Close ws])
          = ticks 0 (1#2) (List.length messages)).
  rewrite send_times_from_app, send_times_turns. apply app_nil_r.
Qed.

(** ** The claims, in the run where every call returns *)

(** When every call returns: once the connection opens, [on_open] first prints the connected
    notice, then sends exactly the three messages in their listed order;
    right after each send it prints that message's sent-confirmation and
    then pauses 0.5 s, so consecutive sends are 0.5 s apart; no message is
    skipped, sent twice or out of order. *)
Theorem on_open_sends_three_in_order (ws : WebSocketApp) :
  let t := calls (on_open ws) in
  hd_error t = Some (Print connected_notice)
  /\ t = Print connected_notice :: flat_map (turn ws) messages ++ [Sleep 1; Close ws]
  /\ sent t = messages
  /\ List.length (sent t) = 3%nat
  /\ NoDup (sent t)
  /\ followers t = map (fun m => (m, Some (Print (sent_tag ++ m)))) messages
  /\ Forall (fun gap => gap == 1#2) (gaps (send_times t))
  /\ List.length (gaps (send_times t)) = 2%nat.
Proof.
  intros t.
  assert (Hsent : sent t = messages).
  { subst t. rewrite on_open_calls.
    change (sent (flat_map (turn ws) messages ++ [Sleep 1; Close ws]) = messages).
    rewrite sent_app, sent_turns. apply app_nil_r. }
  split; [reflexivity |].
  split; [apply on_open_calls |].
  split; [exact Hsent |].
  rewrite Hsent.
  split; [reflexivity |].
  split.
  { unfold messages. repeat constructor; simpl; intuition discriminate. }
  split.
  { subst t. rewrite on_open_calls.
    change (followers (flat_map (turn ws) messages ++ [Sleep 1; Close ws])
            = map (fun m => (m, Some (Print (sent_tag ++ m)))) messages).
    rewrite followers_turns. apply app_nil_r. }
  subst t. rewrite on_open_send_times.
  split; [apply gaps_ticks | apply length_gaps_ticks].
Qed.

(** C2. After the last message is sent, [on_open] lets at least 1 s pass
    before it calls [close]: the pause of 1 s is the call right before the
    close, and the close is issued at least 1 s after the last send. *)
Theorem close_waits_at_least_one_second (ws : WebSocketApp) :
  let t := calls (on_open ws) in
  exists (last_send closing : Q) (before : trace),
    last_send_time t = Some last_send
    /\ close_times t = [closing]
    /\ last_send + 1 <= closing
    /\ t = before ++ [Sleep 1; Close ws]
    /\ sent before = messages.
Proof.
  intros t. subst t. rewrite on_open_calls.
  eexists. eexists. exists (Print connected_notice :: flat_map (turn ws) messages).
  split; [reflexivity |].
  split; [reflexivity |].
  split; [unfold Qle; simpl; lia |].
  split; [reflexivity |].
  change (sent (flat_map (turn ws) messages) = messages). apply sent_turns.
Qed.

(** C9. The 0.5 s pause of the loop is also taken after the final message,
    so between the last send and the call of [close] the script sleeps
    0.5 s and then 1 s: 1.5 s in all, not 1 s. *)
Theorem last_send_to_close_is_one_and_a_half (ws : WebSocketApp) :
  let t := calls (on_open ws) in
  exists (last_send closing : Q) (before : trace),
    last_send_time t = Some last_send
    /\ close_times t = [closing]
    /\ closing - last_send == 3#2
    /\ ~ closing - last_send == 1
    /\ t = before ++ [Send ws "WebSocket is working!";
                      Print (sent_tag ++ "WebSocket is working!");
                      Sleep (1#2); Sleep 1; Close ws].
Proof.
  intros t. subst t. rewrite on_open_calls.
  eexists. eexists.
  exists (Print connected_notice
          :: flat_map (turn ws) ["Hello from Python client!"; "This is a test message"]).
  split; [reflexivity |].
  split; [reflexivity |].
  split; [reflexivity |].
  split; [discriminate |].
  reflexivity.
Qed.

(** When every call returns: the message list is exactly the three payloads, in this order;
    [on_open] sends them and then calls [close] once, as its last call; so
    in any run each opening of the connection sends the three payloads and
    closes once. *)
Theorem on_open_payloads_then_one_close (ws : WebSocketApp) (p : process)
    (events : list event) :
  messages = ["Hello from Python client!"; "This is a test message";
              "WebSocket is working!"]
  /\ sent (calls (on_open ws)) = ["Hello from Python client!"; "This is a test message";
                                   "WebSocket is working!"]
  /\ closed_by_client (calls (on_open ws)) = [ws]
  /\ (exists before : trace,
        calls (on_open ws) = before ++ [Close ws]
        /\ sent before = messages
        /\ closed_by_client before = [])
  /\ sent (calls (script p events))
     = flat_map (fun _ => messages) (filter is_open events)
  /\ closed_by_client (calls (script p events))
     = map (fun _ => mkApp server_url) (filter is_open events).
Proof.
  split; [reflexivity |].
  split.
  { rewrite on_open_calls.
    change (sent (flat_map (turn ws) messages ++ [Sleep 1; Close ws]) = messages).
    rewrite sent_app, sent_turns. apply app_nil_r. }
  split.
  { rewrite on_open_calls.
    change (closed_by_client (flat_map (turn ws) messages ++ [Sleep 1; Close ws]) = [ws]).
    now rewrite closed_by_client_app, closed_by_client_turns. }
  split.
  { exists (Print connected_notice :: flat_map (turn ws) messages ++ [Sleep 1]).
    rewrite on_open_calls. split; [| split].
    - simpl. reflexivity.
    - change (sent (flat_map (turn ws) messages ++ [Sleep 1]) = messages).
      rewrite sent_app, sent_turns. apply app_nil_r.
    - change (closed_by_client (flat_map (turn ws) messages ++ [Sleep 1]) = []).
      now rewrite closed_by_client_app, closed_by_client_turns. }
  split; [apply sent_script | apply closed_by_client_script].
Qed.

(** A trace that grows by one [print] grows by one line of output and by
    nothing else: nothing is sent, closed, constructed, run or installed,
    and the clock stands still. *)
Lemma print_frame (before : trace) (line : string) :
  printed (before ++ [Print line]) = printed before ++ [line]
  /\ sent (before ++ [Print line]) = sent before
  /\ closed_by_client (before ++ [Print line]) = closed_by_client before
  /\ constructed (before ++ [Print line]) = constructed before
  /\ run_loops (before ++ [Print line]) = run_loops before
  /\ installs (before ++ [Print line]) = installs before
  /\ elapsed (before ++ [Print line]) = elapsed before.
Proof.
  rewrite printed_app, sent_app, closed_by_client_app, constructed_app,
    run_loops_app, installs_app, elapsed_app.
  simpl. rewrite !app_nil_r. repeat split; reflexivity.
Qed.

(** C3. Whatever the command line, the environment variables, the
    interpreter and the events of the run, the script constructs one
    connection object, for the constant ws://localhost:8096/ws, and every
    connection it runs, sends on or closes is that one. *)
Theorem server_url_is_hardcoded (p p' : process) (events events' : list event) :
  server_url = "ws://localhost:8096/ws"
  /\ constructed (calls (script p events)) = ["ws://localhost:8096/ws"]
  /\ run_loops (calls (script p events)) = [mkApp "ws://localhost:8096/ws"]
  /\ Forall (eq "ws://localhost:8096/ws") (peers (calls (script p events)))
  /\ constructed (calls (script p events)) = constructed (calls (script p' events')).
Proof.
  split; [reflexivity |].
  split; [apply constructed_script |].
  split; [apply run_loops_script |].
  split; [apply peers_script |].
  now rewrite !constructed_script.
Qed.

(** C4. A run in which the library never reports the connection as open
    sends nothing and prints no sent-confirmation line. *)
Theorem never_opened_never_sends (p : process) (events : list event) :
  ~ In Opened events ->
  sent (calls (script p events)) = []
  /\ filter is_sent_line (printed (calls (script p events))) = [].
Proof.
  intros Hno.
  rewrite sent_script, sent_lines_script, (filter_is_open_nil events Hno).
  split; reflexivity.
Qed.

(** When every call returns and the first [import websocket] fails, the script announces the
    installation, runs [pip install websocket-client] with its own
    interpreter, imports the library again and goes on to connect; the
    installation is the only one of the run and comes before the connection
    object exists, and once the run loop is entered nothing is installed,
    constructed or run again, whatever events follow. *)
Theorem missing_library_is_installed_before_connecting (p : process)
    (events : list event) :
  websocket_installed p = false ->
  calls (script p events)
  = self_install p ++ connecting ++ session (mkApp server_url) events
  /\ installs (calls (script p events))
     = [[sys_executable p; "-m"; "pip"; "install"; "websocket-client"]]
  /\ installs (connecting ++ session (mkApp server_url) events) = []
  /\ constructed (session (mkApp server_url) events) = []
  /\ run_loops (session (mkApp server_url) events) = [].
Proof.
  intros Hmissing.
  assert (Hcalls : calls (script p events)
                   = self_install p ++ connecting ++ session (mkApp server_url) events).
  { rewrite script_calls, imports_calls, Hmissing. reflexivity. }
  split; [exact Hcalls |].
  split.
  { rewrite Hcalls, !installs_app, installs_session. reflexivity. }
  split.
  { rewrite installs_app, installs_session. reflexivity. }
  split; [apply constructed_session | apply run_loops_session].
Qed.

(** C6. [on_close] issues one call, the print of the fixed closed notice,
    whatever the connection, the status code and the close message; so in
    any run the closed notice is printed once per close event. *)
Theorem on_close_prints_one_fixed_notice (ws ws' : WebSocketApp)
    (code code' : option Z) (msg msg' : option string)
    (p : process) (events : list event) :
  calls (on_close ws code msg) = [Print closed_notice]
  /\ calls (on_close ws code msg) = calls (on_close ws' code' msg')
  /\ count_occ string_dec (printed (calls (script p events))) closed_notice
     = List.length (filter is_close events).
Proof.
  split; [reflexivity |].
  split; [reflexivity |].
  apply closed_notices_script.
Qed.

(** C7. [on_message] issues one call, the print of the message behind the
    received tag; added to any trace it adds that line to the output and
    leaves everything else as it was: nothing is sent or closed, no
    connection is constructed or run, nothing is installed, no time
    passes. *)
Theorem on_message_only_prints (ws : WebSocketApp) (message : string)
    (before : trace) :
  let t := before ++ calls (on_message ws message) in
  calls (on_message ws message) = [Print (received_tag ++ message)]
  /\ printed t = printed before ++ [(received_tag ++ message)%string]
  /\ sent t = sent before
  /\ closed_by_client t = closed_by_client before
  /\ constructed t = constructed before
  /\ run_loops t = run_loops before
  /\ installs t = installs before
  /\ elapsed t = elapsed before.
Proof.
  intros t. split; [reflexivity |].
  apply (print_frame before (received_tag ++ message)%string).
Qed.

(** C8. [on_error] issues one call, the print of the error's description
    behind the error tag; it sends nothing, closes nothing and opens no new
    connection; and in any run, however many errors are reported, one
    connection object is constructed and its run loop is entered once. *)
Theorem on_error_only_prints (ws : WebSocketApp) (error : exception)
    (before : trace) (p : process) (events : list event) :
  let t := before ++ calls (on_error ws error) in
  calls (on_error ws error) = [Print (error_tag ++ exc_str error)]
  /\ (printed t = printed before ++ [(error_tag ++ exc_str error)%string]
      /\ sent t = sent before
      /\ closed_by_client t = closed_by_client before
      /\ constructed t = constructed before
      /\ run_loops t = run_loops before
      /\ installs t = installs before
      /\ elapsed t = elapsed before)
  /\ constructed (calls (script p events)) = [server_url]
  /\ run_loops (calls (script p events)) = [mkApp server_url].
Proof.
  intros t. split; [reflexivity |].
  split; [apply (print_frame before (error_tag ++ exc_str error)%string) |].
  split; [apply constructed_script | apply run_loops_script].
Qed.

(** ** The claims with a premise, at a concrete run *)

(** The run of the specification's scenario: nothing listens on the port,
    so the library reports the refused connection and then the close. *)
Lemma never_opened_never_sends_refused :
  let p := mkProcess ["test-websocket.py"] [] "/usr/bin/python3" true in
  let events := [Error (mkExc "ConnectionRefusedError"
                              "[Errno 111] Connection refused");
                 Closed None None] in
  ~ In Opened events
  /\ sent (calls (script p events)) = []
  /\ filter is_sent_line (printed (calls (script p events))) = [].
Proof.
  assert (Hno : ~ In Opened
                  [Error (mkExc "ConnectionRefusedError"
                                "[Errno 111] Connection refused");
                   Closed None None]).
  { simpl. intros [H | [H | H]]; [discriminate H | discriminate H | exact H]. }
  split; [exact Hno |].
  exact (never_opened_never_sends
           (mkProcess ["test-websocket.py"] [] "/usr/bin/python3" true) _ Hno).
Defined.

(** A run on a machine without the library, with a server that echoes the
    first message and then closes. *)
Lemma missing_library_is_installed_on_fresh_machine :
  let p := mkProcess ["test-websocket.py"] [] "/usr/bin/python3" false in
  let events := [Opened; Message "Hello from Python client!"; Closed (Some 1000%Z) None] in
  websocket_installed p = false
  /\ calls (script p events)
     = self_install p ++ connecting ++ session (mkApp server_url) events
  /\ installs (calls (script p events))
     = [["/usr/bin/python3"; "-m"; "pip"; "install"; "websocket-client"]]
  /\ installs (connecting ++ session (mkApp server_url) events) = []
  /\ constructed (session (mkApp server_url) events) = []
  /\ run_loops (session (mkApp server_url) events) = [].
Proof.
  split; [reflexivity |].
  exact (missing_library_is_installed_before_connecting
           (mkProcess ["test-websocket.py"] [] "/usr/bin/python3" false)
           [Opened; Message "Hello from Python client!"; Closed (Some 1000%Z) None]
           eq_refl).
Defined.

(** The console of the specification's scenario: the connect-attempt line,
    the error line, the closed line. *)
Example refused_connection_console :
  printed (calls (script (mkProcess [] [] "/usr/bin/python3" true)
                         [Error (mkExc "ConnectionRefusedError"
                                       "[Errno 111] Connection refused");
                          Closed None None]))
  = [ "Connecting to ws://localhost:8096/ws...";
      "❌ Error: [Errno 111] Connection refused";
      "🔌 Connection closed" ].
Proof. reflexivity. Qed.

(** With the library present nothing is installed. *)
Lemma present_library_is_not_installed (p : process) (events : list event) :
  websocket_installed p = true ->
  installs (calls (script p events)) = [].
Proof.
  intros Hpresent.
  rewrite script_calls, imports_calls, Hpresent, !installs_app, installs_session.
  reflexivity.
Qed.

(** ** Further properties of a run *)

Lemma session_app (ws : WebSocketApp) (events1 events2 : list event) :
  session ws (events1 ++ events2) = session ws events1 ++ session ws events2.
Proof. apply flat_map_app. Qed.

(** The clock after a trace is the clock before it plus what the trace
    sleeps. *)
Lemma clock_shift (t : trace) (now : Q) :
  fold_left tick t now == now + elapsed t.
Proof.
  unfold elapsed. revert now.
  induction t as [| c rest IH]; intros now; simpl.
  - ring.
  - rewrite (IH (tick now c)), (IH (tick 0 c)).
    destruct c; simpl; ring.
Qed.

Lemma elapsed_dispatch (ws : WebSocketApp) (ev : event) :
  elapsed (calls (dispatch registered ws ev)) == if is_open ev then 5#2 else 0.
Proof. destruct ev; reflexivity. Qed.

Lemma elapsed_session (ws : WebSocketApp) (events : list event) :
  elapsed (session ws events) == (5#2) * inject_Z (Z.of_nat (opens events)).
Proof.
  induction events as [| ev rest IH]; [reflexivity |].
  change (session ws (ev :: rest))
    with (calls (dispatch registered ws ev) ++ session ws rest).
  rewrite elapsed_app, clock_shift, elapsed_dispatch, IH.
  unfold opens. simpl filter. destruct (is_open ev).
  - cbn [List.length]. rewrite Nat2Z.inj_succ, <- Z.add_1_r, inject_Z_plus. ring.
  - ring.
Qed.

(** When every call returns, the script sleeps only in [on_open]: a run sleeps 2.5 s for each time
    the connection is reported open, and not at all otherwise. *)
Theorem run_sleeps_per_open (p : process) (events : list event) :
  elapsed (calls (script p events)) == (5#2) * inject_Z (Z.of_nat (opens events)).
Proof.
  rewrite script_calls, imports_calls.
  destruct (websocket_installed p);
    exact (elapsed_session (mkApp server_url) events).
Qed.




Lemma received_payloads_app (lines1 lines2 : list string) :
  received_payloads (lines1 ++ lines2)
  = received_payloads lines1 ++ received_payloads lines2.
Proof. apply flat_map_app. Qed.

Lemma received_payloads_dispatch (ws : WebSocketApp) (ev : event) :
  received_payloads (printed (calls (dispatch registered ws ev))) = incoming [ev].
Proof.
  destruct ev as [| message | error | code msg]; try reflexivity.
  destruct message; reflexivity.
Qed.

Lemma received_payloads_session (ws : WebSocketApp) (events : list event) :
  received_payloads (printed (session ws events)) = incoming events.
Proof.
  induction events as [| ev rest IH]; [reflexivity |].
  change (session ws (ev :: rest))
    with (calls (dispatch registered ws ev) ++ session ws rest).
  rewrite printed_app, received_payloads_app, received_payloads_dispatch, IH.
  destruct ev; reflexivity.
Qed.

(** X3. The messages delivered in a run can be read back from what is printed:
    stripping the received tag from the lines that carry it gives exactly
    the messages, in order, whatever else the run prints. *)
Theorem received_lines_give_back_messages (p : process) (events : list event) :
  received_payloads (printed (calls (script p events))) = incoming events.
Proof.
  rewrite script_calls, imports_calls, !printed_app, !received_payloads_app,
    received_payloads_session.
  destruct (websocket_installed p); reflexivity.
Qed.

Lemma string_app_assoc (a b c : string) :
  ((a ++ b) ++ c)%string = (a ++ b ++ c)%string.
Proof.
  induction a as [| ch a IH]; simpl; [reflexivity | now rewrite IH].
Qed.

Lemma stdout_app (t1 t2 : trace) :
  stdout (t1 ++ t2) = (stdout t1 ++ stdout t2)%string.
Proof.
  unfold stdout. rewrite printed_app.
  induction (printed t1) as [| line rest IH]; cbn [fold_right app]; [reflexivity |].
  now rewrite IH, !string_app_assoc.
Qed.

(** X4. [on_message] prints the message as it comes, so a message that holds a
    newline writes more than one console line: anywhere in a run, one
    message ending in a newline and the closed notice leaves the same
    console text as a message followed by a real close. *)
Theorem message_text_can_forge_closed_line (p : process)
    (before after : list event) (message : string)
    (code : option Z) (msg : option string) :
  stdout (calls (script p
            (before ++ [Message (message ++ newline ++ closed_notice)] ++ after)))
  = stdout (calls (script p
              (before ++ [Message message; Closed code msg] ++ after))).
Proof.
  rewrite !script_calls, !session_app, !stdout_app.
  do 3 f_equal.
  unfold stdout. simpl. do 16 f_equal.
  now rewrite !string_app_assoc.
Qed.



(** ** Calls that raise: the calls issued are an initial part *)

Lemma initial_part_refl {A : Type} (t : list A) : initial_part t t.
Proof. exists []. now rewrite app_nil_r. Qed.

Lemma initial_part_nil {A : Type} (t : list A) : initial_part t [] -> t = [].
Proof.
  intros [rest H]. destruct t; [reflexivity | discriminate H].
Qed.

Lemma initial_part_cons {A : Type} (a : A) (t full : list A) :
  initial_part t full -> initial_part (a :: t) (a :: full).
Proof. intros [rest H]. exists rest. simpl. now rewrite H. Qed.

Lemma initial_part_firstn {A : Type} (t full : list A) :
  initial_part t full -> t = firstn (List.length t) full.
Proof.
  intros [rest H]. subst full.
  rewrite firstn_app, Nat.sub_diag, firstn_all. simpl. now rewrite app_nil_r.
Qed.

Lemma initial_part_length {A : Type} (t full : list A) :
  initial_part t full -> (List.length t <= List.length full)%nat.
Proof. intros [rest H]. subst full. rewrite length_app. lia. Qed.

Lemma initial_part_flat_map {A B : Type} (f : A -> list B) (t full : list A) :
  initial_part t full -> initial_part (flat_map f t) (flat_map f full).
Proof.
  intros [rest H]. exists (flat_map f rest). subst full. apply flat_map_app.
Qed.

Section RaisingMonad.

Import Raising.

Lemma same_refl {A : Type} (m : M A) : same m m.
Proof. intros rt before. reflexivity. Qed.

Lemma same_trans {A : Type} (m1 m2 m3 : M A) :
  same m1 m2 -> same m2 m3 -> same m1 m3.
Proof. intros H12 H23 rt before. now rewrite H12. Qed.

Lemma bind_same {A B : Type} (m m' : M A) (k k' : A -> M B) :
  same m m' -> (forall a, same (k a) (k' a)) -> same (bind m k) (bind m' k').
Proof.
  intros Hm Hk rt before. unfold bind. rewrite Hm.
  destruct (m' rt before) as [[a | e] t1]; [| reflexivity].
  now rewrite Hk.
Qed.

Lemma bind_assoc {A B C : Type} (m : M A) (k : A -> M B) (k' : B -> M C) :
  same (bind (bind m k) k') (bind m (fun a => bind (k a) k')).
Proof.
  intros rt before. unfold bind.
  destruct (m rt before) as [[a | e] t1]; [| reflexivity].
  destruct (k a rt (before ++ t1)) as [[b | e] t2]; [| reflexivity].
  rewrite app_assoc.
  destruct (k' b rt ((before ++ t1) ++ t2)) as [r t3].
  now rewrite app_assoc.
Qed.

Lemma bind_ret_left {A : Type} (m : M A) :
  same (bind (ret tt) (fun _ => m)) m.
Proof.
  intros rt before. unfold bind, ret. rewrite app_nil_r.
  destruct (m rt before) as [r t]. reflexivity.
Qed.

Lemma replay_app (t1 t2 : trace) :
  same (replay (t1 ++ t2)) (bind (replay t1) (fun _ => replay t2)).
Proof.
  induction t1 as [| c rest IH].
  - intros rt before. symmetry. apply (bind_ret_left (replay t2)).
  - change (replay ((c :: rest) ++ t2))
      with (bind (step c) (fun _ => replay (rest ++ t2))).
    change (replay (c :: rest)) with (bind (step c) (fun _ => replay rest)).
    intros rt before.
    rewrite (bind_assoc (step c) (fun _ => replay rest) (fun _ => replay t2)).
    apply bind_same; [apply same_refl | intros _; exact IH].
Qed.

(** A call that is not a failed import is replayed as itself. *)
Lemma emit_replay (c : call) :
  (forall module, c <> Import module false) -> same (emit c) (replay [c]).
Proof.
  intros Hc rt before.
  assert (Hstep : step c = emit c).
  { destruct c as [module found | | | | | | |]; try reflexivity.
    destruct found; [reflexivity | now destruct (Hc module)]. }
  unfold replay. simpl. rewrite Hstep. unfold bind, emit, ret.
  destruct (rt before c); reflexivity.
Qed.

Lemma bind_replay (m : M unit) (k : unit -> M unit) (t1 t2 : trace) :
  same m (replay t1) -> (forall a, same (k a) (replay t2)) ->
  same (bind m k) (replay (t1 ++ t2)).
Proof.
  intros Hm Hk.
  apply same_trans with (bind (replay t1) (fun _ => replay t2)).
  - apply bind_same; assumption.
  - intros rt before. symmetry. apply replay_app.
Qed.

Lemma for_each_replay {A : Type} (xs : list A) (body : A -> M unit)
    (plan : A -> trace) :
  (forall x, same (body x) (replay (plan x))) ->
  same (for_each xs body) (replay (flat_map plan xs)).
Proof.
  intros Hbody. induction xs as [| x rest IH].
  - apply same_refl.
  - simpl. apply bind_replay; [apply Hbody | intros _; exact IH].
Qed.

(** What a replay issues. *)

Lemma replay_cons (c : call) (t : trace) (rt : runtime) (before : trace) :
  replay (c :: t) rt before
  = match step c rt before with
    | (Returned _, _) =>
        (outcome (replay t rt (before ++ [c])), c :: issued (replay t rt (before ++ [c])))
    | (Raised e, _) => (Raised e, [c])
    end.
Proof.
  change (replay (c :: t)) with (bind (step c) (fun _ => replay t)).
  unfold bind.
  assert (Hone : snd (step c rt before) = [c]).
  { destruct c as [module found | | | | | | |]; try reflexivity.
    destruct found; reflexivity. }
  destruct (step c rt before) as [[a | e] t1]; simpl in Hone; subst t1.
  - destruct (replay t rt (before ++ [c])) as [r t2]. reflexivity.
  - reflexivity.
Qed.

Lemma replay_initial (t : trace) (rt : runtime) (before : trace) :
  initial_part (issued (replay t rt before)) t.
Proof.
  revert before. induction t as [| c rest IH]; intros before.
  - apply initial_part_refl.
  - rewrite replay_cons.
    destruct (step c rt before) as [[a | e] t1]; simpl.
    + apply initial_part_cons, IH.
    + exists rest. reflexivity.
Qed.

Lemma replay_returned (t : trace) (rt : runtime) (before : trace) :
  outcome (replay t rt before) = Returned tt -> issued (replay t rt before) = t.
Proof.
  revert before. induction t as [| c rest IH]; intros before.
  - reflexivity.
  - rewrite replay_cons.
    destruct (step c rt before) as [[a | e] t1]; simpl.
    + intros H. now rewrite (IH _ H).
    + discriminate.
Qed.

Lemma replay_raised (t : trace) (rt : runtime) (before : trace) (e : exn) :
  outcome (replay t rt before) = Raised e ->
  exists (c : call) (earlier : trace),
    issued (replay t rt before) = earlier ++ [c] /\ e = RaisedBy c.
Proof.
  revert before. induction t as [| c rest IH]; intros before.
  - discriminate.
  - rewrite replay_cons.
    destruct (step c rt before) as [[a | e'] t1] eqn:Hstep; simpl.
    + intros H. destruct (IH _ H) as (c' & earlier & Hissued & He).
      exists c', (c :: earlier). rewrite Hissued. now split.
    + intros H. exists c, []. split; [reflexivity |].
      injection H as <-.
      destruct c as [module found | | | | | | |]; simpl in Hstep;
        try (unfold emit in Hstep;
             match type of Hstep with
             | context [rt ?h ?x] => destruct (rt h x)
             end; now inversion Hstep).
      destruct found; [| discriminate Hstep].
      unfold emit in Hstep. destruct (rt before (Import module true));
        now inversion Hstep.
Qed.

Lemma replay_never (t : trace) (before : trace) :
  replay t never before = (Returned tt, t).
Proof.
  revert before. induction t as [| c rest IH]; intros before.
  - reflexivity.
  - rewrite replay_cons, IH.
    destruct c as [module found | | | | | | |]; try reflexivity.
    destruct found; reflexivity.
Qed.

End RaisingMonad.

(** ** The raising embedding replays the calls of the returning one *)

Section Replays.

Lemma bind_ret {A B : Type} (a : A) (k : A -> Raising.M B) :
  Raising.same (Raising.bind (Raising.ret a) k) (k a).
Proof.
  intros rt before. unfold Raising.bind, Raising.ret. rewrite app_nil_r.
  destruct (k a rt before) as [r t]. reflexivity.
Qed.

Lemma step_replay (c : call) : Raising.same (Raising.step c) (Raising.replay [c]).
Proof.
  intros rt before. rewrite replay_cons.
  assert (Hone : snd (Raising.step c rt before) = [c]).
  { destruct c as [module found | | | | | | |]; try reflexivity.
    destruct found; reflexivity. }
  destruct (Raising.step c rt before) as [[[] | e] t1]; simpl in Hone; subst t1;
    reflexivity.
Qed.

Lemma on_open_replays (ws : WebSocketApp) :
  Raising.same (Raising.on_open ws) (Raising.replay (on_open_plan ws)).
Proof.
  unfold Raising.on_open, on_open_plan.
  apply (bind_replay _ _ [Print connected_notice]).
  { apply emit_replay. discriminate. }
  intros _.
  apply (bind_replay _ _ (flat_map (turn ws) messages) [Sleep 1; Close ws]).
  { apply for_each_replay. intros msg. unfold turn.
    apply (bind_replay _ _ [Send ws msg]); [apply emit_replay; discriminate |].
    intros _.
    apply (bind_replay _ _ [Print (sent_tag ++ msg)] [Sleep (1#2)]);
      [apply emit_replay; discriminate |].
    intros _. apply emit_replay. discriminate. }
  intros _.
  apply (bind_replay _ _ [Sleep 1] [Close ws]); [apply emit_replay; discriminate |].
  intros _. apply emit_replay. discriminate.
Qed.

Lemma dispatch_replays (ws : WebSocketApp) (ev : event) :
  Raising.same (Raising.dispatch Raising.registered ws ev)
       (Raising.replay (calls (dispatch registered ws ev))).
Proof.
  destruct ev as [| message | error | code msg].
  - change (calls (dispatch registered ws Opened)) with (calls (on_open ws)).
    rewrite on_open_calls. apply on_open_replays.
  - apply emit_replay. discriminate.
  - apply emit_replay. discriminate.
  - apply emit_replay. discriminate.
Qed.

Lemma imports_replays (p : process) :
  Raising.same (Raising.imports p) (Raising.replay (calls (imports p))).
Proof.
  rewrite imports_calls. unfold Raising.imports, Raising.import_websocket.
  destruct (websocket_installed p).
  - apply (bind_replay _ _ [Import "sys" true]); [apply emit_replay; discriminate |].
    intros _.
    apply (bind_replay _ _ [Import "time" true] [Import "websocket" true]);
      [apply emit_replay; discriminate |].
    intros _.
    apply same_trans with (Raising.emit (Import "websocket" true)).
    + intros rt before. unfold Raising.try_except_ImportError, Raising.import, Raising.emit.
      destruct (rt before (Import "websocket" true)); reflexivity.
    + apply emit_replay. discriminate.
  - unfold self_install.
    apply (bind_replay _ _ [Import "sys" true]); [apply emit_replay; discriminate |].
    intros _.
    apply (bind_replay _ _ [Import "time" true]); [apply emit_replay; discriminate |].
    intros _.
    apply same_trans
      with (Raising.bind (Raising.step (Import "websocket" false))
              (fun _ =>
                 Raising.bind (Raising.print "Installing websocket-client...")
                   (fun _ =>
                      Raising.bind (Raising.import "subprocess")
                        (fun _ =>
                           Raising.bind
                             (Raising.check_call
                                [sys_executable p; "-m"; "pip"; "install";
                                 "websocket-client"])
                             (fun _ => Raising.import "websocket"))))).
    { intros rt before. reflexivity. }
    apply (bind_replay _ _ [Import "websocket" false]); [apply step_replay |].
    intros _.
    apply (bind_replay _ _ [Print "Installing websocket-client..."]);
      [apply emit_replay; discriminate |].
    intros _.
    apply (bind_replay _ _ [Import "subprocess" true]);
      [apply emit_replay; discriminate |].
    intros _.
    apply (bind_replay _ _ [CheckCall _] [Import "websocket" true]);
      [apply emit_replay; discriminate |].
    intros _. apply emit_replay. discriminate.
Qed.

Lemma script_replays (p : process) (events : list event) :
  Raising.same (Raising.script p events)
       (Raising.bind (Raising.replay (calls (imports p) ++ connecting))
          (fun _ => Raising.deliver Raising.registered (mkApp server_url) events)).
Proof.
  unfold Raising.script, Raising.main, Raising.run_forever,
    Raising.websocket_WebSocketApp.
  apply same_trans
    with (Raising.bind (Raising.replay (calls (imports p)))
            (fun _ => Raising.bind (Raising.replay connecting)
                        (fun _ => Raising.deliver Raising.registered (mkApp server_url) events))).
  - apply bind_same; [apply imports_replays |].
    intros _. unfold connecting.
    apply same_trans
      with (Raising.bind (Raising.replay [Print "Connecting to ws://localhost:8096/ws..."])
              (fun _ => Raising.bind (Raising.replay [Construct server_url; RunForever (mkApp server_url)])
                          (fun _ => Raising.deliver Raising.registered (mkApp server_url) events))).
    + apply bind_same; [apply emit_replay; discriminate |].
      intros _.
      apply same_trans
        with (Raising.bind (Raising.emit (Construct server_url))
                (fun _ => Raising.bind (Raising.emit (RunForever (mkApp server_url)))
                            (fun _ => Raising.deliver Raising.registered (mkApp server_url) events))).
      * apply same_trans
          with (Raising.bind (Raising.emit (Construct server_url))
                  (fun _ => Raising.bind (Raising.ret (mkApp server_url))
                              (fun ws => Raising.bind (Raising.emit (RunForever ws))
                                           (fun _ => Raising.deliver Raising.registered ws events)))).
        { apply bind_assoc. }
        apply bind_same; [apply same_refl |].
        intros _.
        apply (bind_ret (mkApp server_url)
                 (fun ws => Raising.bind (Raising.emit (RunForever ws))
                              (fun _ => Raising.deliver Raising.registered ws events))).
      * apply same_trans
          with (Raising.bind (Raising.bind (Raising.replay [Construct server_url])
                        (fun _ => Raising.replay [RunForever (mkApp server_url)]))
                  (fun _ => Raising.deliver Raising.registered (mkApp server_url) events)).
        { apply same_trans
            with (Raising.bind (Raising.replay [Construct server_url])
                    (fun _ => Raising.bind (Raising.replay [RunForever (mkApp server_url)])
                                (fun _ => Raising.deliver Raising.registered (mkApp server_url) events))).
          - apply bind_same; [apply emit_replay; discriminate |].
            intros _. apply bind_same; [apply emit_replay; discriminate |].
            intros _. apply same_refl.
          - intros rt before. symmetry. apply bind_assoc. }
        apply bind_same; [| intros _; apply same_refl].
        intros rt before. symmetry.
        apply (replay_app [Construct server_url] [RunForever (mkApp server_url)]).
    + apply same_trans
        with (Raising.bind (Raising.bind (Raising.replay [Print "Connecting to ws://localhost:8096/ws..."])
                      (fun _ => Raising.replay [Construct server_url; RunForever (mkApp server_url)]))
                (fun _ => Raising.deliver Raising.registered (mkApp server_url) events)).
      * intros rt before. symmetry. apply bind_assoc.
      * apply bind_same; [| intros _; apply same_refl].
        intros rt before. symmetry.
        apply (replay_app [Print "Connecting to ws://localhost:8096/ws..."]
                 [Construct server_url; RunForever (mkApp server_url)]).
  - apply same_trans
      with (Raising.bind (Raising.bind (Raising.replay (calls (imports p))) (fun _ => Raising.replay connecting))
              (fun _ => Raising.deliver Raising.registered (mkApp server_url) events)).
    + intros rt before. symmetry. apply bind_assoc.
    + apply bind_same; [| intros _; apply same_refl].
      intros rt before. symmetry. apply replay_app.
Qed.

End Replays.

(** ** Callbacks and runs with calls that raise *)


Lemma deliver_cons (ws : WebSocketApp) (ev : event) (rest : list event)
    (rt : Raising.runtime) (before : trace) :
  Raising.issued (Raising.deliver Raising.registered ws (ev :: rest) rt before)
  = Raising.issued (Raising.dispatch Raising.registered ws ev rt before)
    ++ Raising.issued
         (Raising.deliver Raising.registered ws rest rt
            (before
             ++ Raising.issued (Raising.dispatch Raising.registered ws ev rt before))).
Proof.
  unfold Raising.deliver. simpl. unfold Raising.bind, Raising.callback.
  destruct (Raising.for_each rest _ rt _) as [r t2]. reflexivity.
Qed.

Lemma deliver_returns (ws : WebSocketApp) (events : list event)
    (rt : Raising.runtime) (before : trace) :
  Raising.outcome (Raising.deliver Raising.registered ws events rt before)
  = Raising.Returned tt.
Proof.
  revert before. induction events as [| ev rest IH]; intros before.
  - reflexivity.
  - unfold Raising.deliver in *. simpl. unfold Raising.bind, Raising.callback.
    specialize (IH (before
                    ++ Raising.issued
                         (Raising.dispatch Raising.registered ws ev rt before))).
    destruct (Raising.for_each rest _ rt _) as [r t2]. exact IH.
Qed.

Lemma deliver_never (ws : WebSocketApp) (events : list event) (before : trace) :
  Raising.issued (Raising.deliver Raising.registered ws events Raising.never before)
  = session ws events.
Proof.
  revert before. induction events as [| ev rest IH]; intros before.
  - reflexivity.
  - rewrite deliver_cons, IH, dispatch_replays, replay_never. reflexivity.
Qed.


(** A run either ends in the setup, at the call that raised, or issues the
    whole setup and then the calls of the callbacks. *)
Lemma run_cases (rt : Raising.runtime) (p : process) (events : list event) :
  let setup := calls (imports p) ++ connecting in
  (exists e : Raising.exn,
      Raising.outcome (Raising.run rt p events) = Raising.Raised e
      /\ Raising.issued (Raising.run rt p events)
         = Raising.issued (Raising.replay setup rt [])
      /\ Raising.outcome (Raising.replay setup rt []) = Raising.Raised e)
  \/ (Raising.outcome (Raising.run rt p events) = Raising.Returned tt
      /\ Raising.issued (Raising.run rt p events)
         = setup
           ++ Raising.issued
                (Raising.deliver Raising.registered (mkApp server_url) events rt setup)
      /\ Raising.issued (Raising.replay setup rt []) = setup).
Proof.
  intros setup. unfold Raising.run. rewrite script_replays. unfold Raising.bind.
  change (calls (imports p) ++ connecting) with setup. simpl app.
  destruct (Raising.replay setup rt []) as [[[] | e] t1] eqn:Hsetup.
  - right.
    assert (Ht1 : t1 = setup).
    { change t1 with (Raising.issued (Raising.Returned tt, t1)).
      rewrite <- Hsetup. apply replay_returned. now rewrite Hsetup. }
    subst t1. simpl.
    pose proof (deliver_returns (mkApp server_url) events rt setup) as Hret.
    destruct (Raising.deliver Raising.registered (mkApp server_url) events rt setup)
      as [r t2].
    simpl in Hret. subst r. repeat split; reflexivity.
  - left. exists e. repeat split; reflexivity.
Qed.

Lemma run_initial_setup (rt : Raising.runtime) (p : process) (events : list event) :
  initial_part (Raising.issued (Raising.replay (calls (imports p) ++ connecting) rt []))
               (calls (imports p) ++ connecting).
Proof. apply replay_initial. Qed.

(** When no call raises, the run is the one of the returning embedding. *)
Lemma run_never (p : process) (events : list event) :
  Raising.run Raising.never p events
  = (Raising.Returned tt, calls (script p events)).
Proof.
  destruct (run_cases Raising.never p events) as [(e & _ & _ & He) | (Hout & Hiss & _)].
  - rewrite replay_never in He. discriminate He.
  - rewrite deliver_never in Hiss. rewrite script_calls.
    destruct (Raising.run Raising.never p events) as [r t].
    simpl in Hout, Hiss. subst r t. now rewrite app_assoc.
Qed.

(** [on_open] stops after some number of its twelve calls, the first one
    at least. *)
Lemma on_open_cut (ws : WebSocketApp) (rt : Raising.runtime) (before : trace) :
  exists n : nat,
    (1 <= n <= 12)%nat
    /\ Raising.issued (Raising.on_open ws rt before) = firstn n (on_open_plan ws).
Proof.
  rewrite on_open_replays.
  pose proof (replay_initial (on_open_plan ws) rt before) as Hinit.
  exists (List.length (Raising.issued (Raising.replay (on_open_plan ws) rt before))).
  split; [| now apply initial_part_firstn].
  split.
  - unfold on_open_plan. rewrite replay_cons.
    destruct (Raising.step _ rt before) as [[a | e] t1]; simpl; lia.
  - apply initial_part_length in Hinit. exact Hinit.
Qed.



(** What holds of [on_open] wherever it stops. *)
Lemma on_open_parts (ws : WebSocketApp) (n : nat) :
  (1 <= n <= 12)%nat ->
  let t := firstn n (on_open_plan ws) in
  hd_error t = Some (Print connected_notice)
  /\ initial_part (sent t) messages
  /\ NoDup (sent t)
  /\ Forall (fun mf => snd mf = None \/ snd mf = Some (Print (sent_tag ++ fst mf)))
            (followers t)
  /\ Forall (fun gap => gap == 1#2) (gaps (send_times t))
  /\ (closed_by_client t = []
      \/ (closed_by_client t = [ws] /\ t = on_open_plan ws))
  /\ elapsed t <= 5#2.
Proof.
  intros [Hlo Hhi].
  destruct n as [| n]; [lia |].
  do 12 (destruct n as [| n];
         [ simpl;
           split; [reflexivity |];
           split; [unfold initial_part, messages; eexists; reflexivity |];
           split; [repeat constructor; simpl; intuition discriminate |];
           split; [repeat constructor; simpl; auto |];
           split; [repeat constructor; reflexivity |];
           split; [first [left; reflexivity | right; split; reflexivity] |];
           discriminate
         | ]).
  lia.
Qed.

(** An observation that finds nothing in a trace finds nothing in its
    replay. *)
Lemma replay_silent {X : Type} (f : call -> list X) (t : trace)
    (rt : Raising.runtime) (before : trace) :
  flat_map f t = [] ->
  flat_map f (Raising.issued (Raising.replay t rt before)) = [].
Proof.
  intros Hsilent. apply initial_part_nil. rewrite <- Hsilent.
  apply initial_part_flat_map, replay_initial.
Qed.



(** ** The claims that depend on calls returning *)



Lemma installs_setup_missing (p : process) :
  installs (self_install p ++ connecting)
  = [[sys_executable p; "-m"; "pip"; "install"; "websocket-client"]].
Proof. reflexivity. Qed.



(** ** Runs in which a call raises *)




(** ** Further properties of a run in which calls may raise *)


Lemma elapsed_plus (t1 t2 : trace) : elapsed (t1 ++ t2) == elapsed t1 + elapsed t2.
Proof. rewrite elapsed_app. apply clock_shift. Qed.

Lemma clock_without_sleep (t : trace) (now : Q) :
  flat_map (fun c => match c with Sleep secs => [secs] | _ => [] end) t = [] ->
  fold_left tick t now = now.
Proof.
  revert now. induction t as [| c rest IH]; intros now Hnone; [reflexivity |].
  destruct c; simpl in Hnone |- *; try (now apply IH). discriminate Hnone.
Qed.

Lemma replay_single (c : call) (rt : Raising.runtime) (before : trace) :
  Raising.issued (Raising.replay [c] rt before) = [c].
Proof.
  rewrite replay_cons.
  destruct (Raising.step c rt before) as [[a | e] t1]; reflexivity.
Qed.

Lemma elapsed_callback (ws : WebSocketApp) (ev : event)
    (rt : Raising.runtime) (before : trace) :
  elapsed (Raising.issued (Raising.dispatch Raising.registered ws ev rt before))
  <= if is_open ev then 5#2 else 0.
Proof.
  destruct ev as [| message | error | code msg].
  - destruct (on_open_cut ws rt before) as (n & Hn & Hcut).
    change (Raising.dispatch Raising.registered ws Opened) with (Raising.on_open ws).
    rewrite Hcut. apply (on_open_parts ws n Hn).
  - rewrite dispatch_replays.
    change (calls (dispatch registered ws (Message message)))
      with [Print (received_tag ++ message)].
    rewrite replay_single. discriminate.
  - rewrite dispatch_replays.
    change (calls (dispatch registered ws (Error error)))
      with [Print (error_tag ++ exc_str error)].
    rewrite replay_single. discriminate.
  - rewrite dispatch_replays.
    change (calls (dispatch registered ws (Closed code msg)))
      with [Print closed_notice].
    rewrite replay_single. discriminate.
Qed.

Lemma elapsed_deliver (ws : WebSocketApp) (events : list event)
    (rt : Raising.runtime) (before : trace) :
  elapsed (Raising.issued (Raising.deliver Raising.registered ws events rt before))
  <= (5#2) * inject_Z (Z.of_nat (opens events)).
Proof.
  revert before. induction events as [| ev rest IH]; intros before.
  - discriminate.
  - rewrite deliver_cons, elapsed_plus.
    apply Qle_trans
      with ((if is_open ev then 5#2 else 0)
            + (5#2) * inject_Z (Z.of_nat (opens rest))).
    + apply Qplus_le_compat; [apply elapsed_callback | apply IH].
    + apply Qle_lteq. right. unfold opens. simpl filter.
      destruct (is_open ev).
      * cbn [List.length]. rewrite Nat2Z.inj_succ, <- Z.add_1_r, inject_Z_plus. ring.
      * ring.
Qed.

(** X1. The script sleeps only inside [on_open]: whatever calls raise, a run
    sleeps at most 2.5 s for each time the connection is reported open, and
    exactly that when no call raises. *)
Theorem run_sleeps_at_most_per_open (rt : Raising.runtime) (p : process)
    (events : list event) :
  elapsed (Raising.issued (Raising.run rt p events))
  <= (5#2) * inject_Z (Z.of_nat (opens events))
  /\ elapsed (Raising.issued (Raising.run Raising.never p events))
     == (5#2) * inject_Z (Z.of_nat (opens events)).
Proof.
  assert (Hsetup : flat_map (fun c => match c with Sleep secs => [secs] | _ => [] end)
                     (calls (imports p) ++ connecting) = []).
  { rewrite imports_calls. destruct (websocket_installed p); reflexivity. }
  split.
  - destruct (run_cases rt p events) as [(e & _ & Hiss & _) | (_ & Hiss & _)];
      rewrite Hiss.
    + unfold elapsed.
      rewrite (clock_without_sleep _ 0 (replay_silent _ _ rt [] Hsetup)).
      apply Qmult_le_0_compat; [discriminate |].
      change 0 with (inject_Z 0). rewrite <- Zle_Qle. lia.
    + rewrite elapsed_plus. unfold elapsed at 1.
      rewrite (clock_without_sleep _ 0 Hsetup), Qplus_0_l.
      apply elapsed_deliver.
  - rewrite run_never. apply run_sleeps_per_open.
Qed.


